(** * Canvas drawing component: shallow embedding and verification

    Embedding of [src/components/Canvas.tsx] (the class-based tool
    registry) and of its JSX sibling (the [makeShapeElement] /
    [drawElement] variant).  JavaScript numbers are modelled as rationals
    [Q]; JavaScript number equality ([===]) is [Qeq].  Pointer coordinates
    and tool geometry are computed exactly; the image height, the one
    value computed by a division, is rounded as binary64 arithmetic
    rounds it ([fl]) and may be [NaN]. *)

From Stdlib Require Import QArith Qminmax Qabs Qround Qpower Lqa.
From Stdlib Require Import List String Bool ZArith Lia.
Import ListNotations.

Open Scope Q_scope.

(** ** Element types *)

Record Point := mkPoint { x : Q; y : Q }.

(** An opaque decoded raster: [img.width], [img.height] are integers. *)
Record HTMLImageElement := mkImage {
  img_handle : nat;
  width : Z;
  height : Z
}.

(** A JavaScript number that may be [NaN].  Used for the image height,
    [Math.round((img.height / img.width) * w)], which is [NaN] when
    [img.width] is 0; every other numeric field is always finite. *)
Inductive JSNumber :=
| Num (q : Q)
| NaN.

Inductive CanvasElement :=
| RectEl (x y w h : Q)
| CircleEl (cx cy rx ry : Q)
| LineEl (x1 y1 x2 y2 : Q)
| DrawEl (path : list Point)
| ImageEl (img : HTMLImageElement) (x y w : Q) (h : JSNumber).

Inductive ToolId := rect | circle | line | draw | image.

Definition ToolId_eqb (a b : ToolId) : bool :=
  match a, b with
  | rect, rect | circle, circle | line, line | draw, draw | image, image => true
  | _, _ => false
  end.


(** [el.type] *)
Definition el_type (el : CanvasElement) : ToolId :=
  match el with
  | RectEl _ _ _ _ => rect
  | CircleEl _ _ _ _ => circle
  | LineEl _ _ _ _ => line
  | DrawEl _ => draw
  | ImageEl _ _ _ _ _ => image
  end.

(** ** The 2D drawing context

    The per-call configuration ([strokeStyle], [lineWidth], [fillStyle]),
    the [save]/[restore] stack, and the log of issued draw calls.  [fill]
    and [stroke] record the configuration they paint with. *)

Record Config := mkConfig {
  strokeStyle : string;
  lineWidth : Q;
  fillStyle : string
}.

Inductive DrawOp :=
| BeginPath
| RectOp (x y w h : Q)
(** [ctx.ellipse(cx, cy, rx, ry, 0, 0, Math.PI * 2)]: rotation and angles fixed *)
| EllipseOp (cx cy rx ry : Q)
| MoveTo (x y : Q)
| LineTo (x y : Q)
| FillOp (c : Config)
| StrokeOp (c : Config)
| DrawImage (img : HTMLImageElement) (x y w : Q) (h : JSNumber).

Record Ctx := mkCtx {
  config : Config;
  stack : list Config;
  ops : list DrawOp
}.

Definition emit (op : DrawOp) (c : Ctx) : Ctx :=
  mkCtx (config c) (stack c) (ops c ++ [op]).

Definition save (c : Ctx) : Ctx :=
  mkCtx (config c) (config c :: stack c) (ops c).

(** [restore] on an empty stack does nothing (HTML canvas semantics). *)
Definition restore (c : Ctx) : Ctx :=
  match stack c with
  | [] => c
  | k :: r => mkCtx k r (ops c)
  end.

Definition set_config (k : Config) (c : Ctx) : Ctx :=
  mkCtx k (stack c) (ops c).

Definition beginPath (c : Ctx) : Ctx := emit BeginPath c.
Definition fill (c : Ctx) : Ctx := emit (FillOp (config c)) c.
Definition stroke (c : Ctx) : Ctx := emit (StrokeOp (config c)) c.

(** [strokeStyle = '#1a1a2e'; lineWidth = 2; fillStyle = 'rgba(100, 149, 237, 0.25)'] *)
Definition fixed_config : Config :=
  mkConfig "#1a1a2e" 2 "rgba(100, 149, 237, 0.25)".

(** A fresh canvas context with the HTML defaults. *)
Definition default_ctx : Ctx :=
  mkCtx (mkConfig "#000000" 1 "#000000") [] [].

(** ** Tools (Canvas.tsx) *)

Record CanvasTool := mkTool {
  id : ToolId;
  label : string;
  cursor : string;
  (** [draw(ctx, el)]; [drawElement] only hands a tool its own variant *)
  tool_draw : Ctx -> CanvasElement -> Ctx;
  makeElement : Point -> Point -> option CanvasElement
}.

(** Base class: [makeElement] returns [undefined]. *)
Definition base_makeElement (_start _end : Point) : option CanvasElement := None.

Definition RectTool_draw (c : Ctx) (el : CanvasElement) : Ctx :=
  match el with
  | RectEl x0 y0 w h => stroke (fill (emit (RectOp x0 y0 w h) (beginPath c)))
  | _ => c
  end.

Definition RectTool_makeElement (start end_ : Point) : option CanvasElement :=
  Some (RectEl (Qmin (x start) (x end_)) (Qmin (y start) (y end_))
               (Qabs (x end_ - x start)) (Qabs (y end_ - y start))).

Definition RectTool : CanvasTool :=
  mkTool rect "rect" "crosshair" RectTool_draw RectTool_makeElement.

Definition CircleTool_draw (c : Ctx) (el : CanvasElement) : Ctx :=
  match el with
  | CircleEl cx cy rx ry => stroke (fill (emit (EllipseOp cx cy rx ry) (beginPath c)))
  | _ => c
  end.

Definition CircleTool_makeElement (start end_ : Point) : option CanvasElement :=
  Some (CircleEl ((x start + x end_) / 2) ((y start + y end_) / 2)
                 (Qabs (x end_ - x start) / 2) (Qabs (y end_ - y start) / 2)).

Definition CircleTool : CanvasTool :=
  mkTool circle "circle" "crosshair" CircleTool_draw CircleTool_makeElement.

Definition LineTool_draw (c : Ctx) (el : CanvasElement) : Ctx :=
  match el with
  | LineEl x1 y1 x2 y2 => stroke (emit (LineTo x2 y2) (emit (MoveTo x1 y1) (beginPath c)))
  | _ => c
  end.

Definition LineTool_makeElement (start end_ : Point) : option CanvasElement :=
  Some (LineEl (x start) (y start) (x end_) (y end_)).

Definition LineTool : CanvasTool :=
  mkTool line "line" "crosshair" LineTool_draw LineTool_makeElement.

(** [for (let i = 1; i < el.path.length; i++) ctx.lineTo(el.path[i].x, el.path[i].y)] *)
Definition lineTo_all (c : Ctx) (rest : list Point) : Ctx :=
  fold_left (fun c p => emit (LineTo (x p) (y p)) c) rest c.

Definition FreehandTool_draw (c : Ctx) (el : CanvasElement) : Ctx :=
  match el with
  | DrawEl path =>
      if (List.length path <? 2)%nat then c
      else match path with
           | p0 :: rest => stroke (lineTo_all (emit (MoveTo (x p0) (y p0)) (beginPath c)) rest)
           | [] => c
           end
  | _ => c
  end.

Definition FreehandTool : CanvasTool :=
  mkTool draw "draw" "crosshair" FreehandTool_draw base_makeElement.

Definition ImageTool_draw (c : Ctx) (el : CanvasElement) : Ctx :=
  match el with
  | ImageEl img x0 y0 w h => emit (DrawImage img x0 y0 w h) c
  | _ => c
  end.

Definition ImageTool : CanvasTool :=
  mkTool image "image" "default" ImageTool_draw base_makeElement.

(** Toolbar tools: excludes [ImageTool]. *)
Definition TOOLS : list CanvasTool := [RectTool; CircleTool; LineTool; FreehandTool].

(** [Object.fromEntries(TOOLS.map(t => [t.id, t]))]: a later entry
    overwrites an earlier one with the same key; a missing key reads as
    [undefined] ([None]). *)
Definition TOOL_MAP : ToolId -> option CanvasTool :=
  fold_left (fun m t => fun k => if ToolId_eqb k (id t) then Some t else m k)
            TOOLS (fun _ => None).

(** ** Drawing (Canvas.tsx)

    [TOOL_MAP[el.type].draw(ctx, el)] throws a [TypeError] when the lookup
    yields [undefined]; that is the [None] result. *)
Definition drawElement (c : Ctx) (el : CanvasElement) : option Ctx :=
  let c1 := set_config fixed_config (save c) in
  match el with
  | ImageEl img x0 y0 w h => Some (restore (emit (DrawImage img x0 y0 w h) c1))
  | _ =>
      match TOOL_MAP (el_type el) with
      | Some t => Some (restore (tool_draw t c1 el))
      | None => None
      end
  end.

(** ** The JSX sibling: [makeShapeElement] and [drawElement] *)

Definition makeShapeElement (tool : string) (start end_ : Point) : option CanvasElement :=
  if String.eqb tool "rect" then
    Some (RectEl (Qmin (x start) (x end_)) (Qmin (y start) (y end_))
                 (Qabs (x end_ - x start)) (Qabs (y end_ - y start)))
  else if String.eqb tool "circle" then
    Some (CircleEl ((x start + x end_) / 2) ((y start + y end_) / 2)
                   (Qabs (x end_ - x start) / 2) (Qabs (y end_ - y start) / 2))
  else if String.eqb tool "line" then
    Some (LineEl (x start) (y start) (x end_) (y end_))
  else None.

(** The freehand branch returns early ([if (el.path.length < 2) return])
    from [drawElement] itself, between [ctx.save()] and [ctx.restore()]. *)
Definition drawElement_jsx (c : Ctx) (el : CanvasElement) : Ctx :=
  let c1 := set_config fixed_config (save c) in
  match el with
  | RectEl x0 y0 w h =>
      restore (stroke (fill (emit (RectOp x0 y0 w h) (beginPath c1))))
  | CircleEl cx cy rx ry =>
      restore (stroke (fill (emit (EllipseOp cx cy rx ry) (beginPath c1))))
  | LineEl x1 y1 x2 y2 =>
      restore (stroke (emit (LineTo x2 y2) (emit (MoveTo x1 y1) (beginPath c1))))
  | DrawEl path =>
      if (List.length path <? 2)%nat then c1
      else match path with
           | p0 :: rest =>
               restore (stroke (lineTo_all (emit (MoveTo (x p0) (y p0)) (beginPath c1)) rest))
           | [] => restore c1
           end
  | ImageEl img x0 y0 w h => restore (emit (DrawImage img x0 y0 w h) c1)
  end.

(** ** The component state (Canvas.tsx)

    [elements] is the React state mirrored by [elementsRef]; [tool] is
    mirrored by [toolRef]; [drawing] is [drawingRef.current].  A
    [setElements(prev => ...)] functional update is applied to the
    current list.  Rendering ([redraw]) changes only pixels, not this
    state, and is left out of the handlers. *)

Record DrawingRef := mkDrawing {
  active : bool;
  start : option Point;
  path : list Point
}.

Record State := mkState {
  elements : list CanvasElement;
  tool : ToolId;
  drawing : DrawingRef
}.

(** A handler either returns normally or throws (a [TypeError] from an
    [undefined] tool lookup); mutations made before the throw persist. *)
Inductive Outcome :=
| Ok (s : State)
| Thrown (s : State).

Definition outcome_state (o : Outcome) : State :=
  match o with Ok s | Thrown s => s end.

Definition init : State :=
  mkState [] rect (mkDrawing false None []).

Definition set_drawing (s : State) (d : DrawingRef) : State :=
  mkState (elements s) (tool s) d.

(** [pos] is [getPos(e)], the event's canvas-local position. *)
Definition onMouseDown (s : State) (pos : Point) : Outcome :=
  Ok (set_drawing s (mkDrawing true (Some pos) [pos])).

Definition onMouseMove (s : State) (pos : Point) : Outcome :=
  let d := drawing s in
  if negb (active d) then Ok s
  else if ToolId_eqb (tool s) draw then
    (* path.push(pos); redraw({ type: 'draw', path: [...path] }) *)
    Ok (set_drawing s (mkDrawing (active d) (start d) (path d ++ [pos])))
  else match start d with
       | Some st =>
           (* redraw(TOOL_MAP[t].makeElement(start, pos) ?? undefined) *)
           match TOOL_MAP (tool s) with
           | Some _ => Ok s
           | None => Thrown s
           end
       | None => Ok s
       end.

Definition onMouseUp (s : State) (pos : Point) : Outcome :=
  let d := drawing s in
  if negb (active d) then Ok s
  else
    let s1 := set_drawing s (mkDrawing false (start d) (path d)) in
    if ToolId_eqb (tool s) draw then
      let path' := path d ++ [pos] in
      Ok (mkState (elements s ++ [DrawEl path']) (tool s) (mkDrawing false (start d) path'))
    else match start d with
         | Some st =>
             match TOOL_MAP (tool s) with
             | Some t =>
                 match makeElement t st pos with
                 | Some el => Ok (mkState (elements s1 ++ [el]) (tool s1) (drawing s1))
                 | None => Ok s1
                 end
             | None => Thrown s1
             end
         | None => Ok s1
         end.

Definition setTool (s : State) (t : ToolId) : Outcome :=
  Ok (mkState (elements s) t (drawing s)).

(** The clear button: [setElements([])]. *)
Definition onClear (s : State) : Outcome :=
  Ok (mkState [] (tool s) (drawing s)).

(** *** Binary64 arithmetic

    A JavaScript [/] or [*] returns the exact result rounded to the
    nearest IEEE 754 binary64 value, ties to even: [fl].  For [q > 0] with
    [2^k <= q < 2^(k+1)] ([k = ilog2 q]) the representable values near
    [q] are the multiples of [2^e], [e = max(k - 52, -1074)] (53-bit
    significand; below [2^-1022] the subnormal spacing [2^-1074]).
    Overflow to [Infinity] is not modelled: the operands used below are
    integers below [2^32] ([img.width] and [img.height] are [unsigned
    long]) and their quotient times at most 400. *)

Definition pow2 (k : Z) : Q := Qpower (2 # 1) k.

(** [floor(log2 q)] for [q > 0]: [2^k0] is within a factor 2 of [q]. *)
Definition ilog2 (q : Q) : Z :=
  let k0 := (Z.log2 (Qnum q) - Z.log2 (Zpos (Qden q)))%Z in
  if Qle_bool (pow2 k0) q then k0 else (k0 - 1)%Z.

(** The nearest integer, ties to the even one. *)
Definition round_half_even (s : Q) : Z :=
  let f := Qfloor s in
  match Qcompare (s - inject_Z f) (1 # 2) with
  | Lt => f
  | Gt => (f + 1)%Z
  | Eq => if Z.even f then f else (f + 1)%Z
  end.

Definition fl_pos (q : Q) : Q :=
  let e := Z.max (ilog2 q - 52) (-1074) in
  inject_Z (round_half_even (q * pow2 (- e))) * pow2 e.

Definition fl (q : Q) : Q :=
  match Qcompare q 0 with
  | Eq => 0
  | Gt => fl_pos q
  | Lt => - fl_pos (- q)
  end.

(** [Math.round(v)] on a finite double [v]: the nearest integer, halves
    rounded up.  The result is exact (no further rounding). *)
Definition Math_round (v : Q) : Z := Qfloor (v + (1 # 2)).

(** [img.onload] of [onImageUpload]:
    [w = Math.min(img.width, 400)],
    [h = Math.round((img.height / img.width) * w)], where [/] and [*]
    are binary64 operations.  When [img.width] is 0, [w] is 0 and
    [img.height / 0] is [Infinity] (or [NaN] for a 0 height); times 0 it
    is [NaN], and [Math.round(NaN)] is [NaN]. *)
Definition onImageLoad (s : State) (img : HTMLImageElement) : Outcome :=
  let w := Qmin (inject_Z (width img)) 400 in
  let h := if (width img =? 0)%Z then NaN
           else Num (inject_Z (Math_round (fl (fl (inject_Z (height img) / inject_Z (width img)) * w)))) in
  Ok (mkState (elements s ++ [ImageEl img 50 50 w h]) (tool s) (drawing s)).

Inductive Event :=
| MouseDown (p : Point)
| MouseMove (p : Point)
| MouseUp (p : Point)
| MouseLeave (p : Point)
| ClickTool (t : ToolId)
| ClickClear
| ImageLoad (img : HTMLImageElement).

(** [onMouseLeave={onMouseUp}] *)
Definition step (s : State) (e : Event) : Outcome :=
  match e with
  | MouseDown p => onMouseDown s p
  | MouseMove p => onMouseMove s p
  | MouseUp p | MouseLeave p => onMouseUp s p
  | ClickTool t => setTool s t
  | ClickClear => onClear s
  | ImageLoad img => onImageLoad s img
  end.

Fixpoint run (s : State) (es : list Event) : Outcome :=
  match es with
  | [] => Ok s
  | e :: rest =>
      match step s e with
      | Ok s' => run s' rest
      | Thrown s' => Thrown s'
      end
  end.

(** [setTool] is only called by the toolbar buttons, [TOOLS.map(t => ... setTool(t.id))]. *)
Definition valid_event (e : Event) : Prop :=
  match e with
  | ClickTool t => In t (map id TOOLS)
  | _ => True
  end.

Inductive reachable : State -> Prop :=
| reach_init : reachable init
| reach_step s e : reachable s -> valid_event e -> reachable (outcome_state (step s e)).

(** ** Rendering the Document ([redraw], Canvas.tsx) *)

(** [ctx.clearRect(0, 0, canvas.width, canvas.height)] on the 800x600
    canvas erases the whole surface: nothing painted before stays
    visible, so the log of visible paint restarts empty.  Styles and the
    save stack are untouched. *)
Definition clearRect (c : Ctx) : Ctx := mkCtx (config c) (stack c) [].

(** [elementsRef.current.forEach(el => drawElement(ctx, el))]; a throw
    stops the loop. *)
Fixpoint drawElements (c : Ctx) (els : list CanvasElement) : option Ctx :=
  match els with
  | [] => Some c
  | el :: rest =>
      match drawElement c el with
      | Some c' => drawElements c' rest
      | None => None
      end
  end.

(** [redraw(draft)]: clear, draw the Document in order, then the draft. *)
Definition redraw (c : Ctx) (els : list CanvasElement) (draft : option CanvasElement)
  : option Ctx :=
  match drawElements (clearRect c) els with
  | None => None
  | Some c1 =>
      match draft with
      | Some d => drawElement c1 d
      | None => Some c1
      end
  end.

(** The canvas effect of [onMouseMove]: the [redraw] it performs on the
    current Document ([None] when it throws). *)
Definition onMouseMove_redraw (s : State) (pos : Point) (c : Ctx) : option Ctx :=
  let d := drawing s in
  if negb (active d) then Some c
  else if ToolId_eqb (tool s) draw then
    redraw c (elements s) (Some (DrawEl (path d ++ [pos])))
  else match start d with
       | Some st =>
           match TOOL_MAP (tool s) with
           | Some t => redraw c (elements s) (makeElement t st pos)
           | None => None
           end
       | None => Some c
       end.

(** [useEffect(() => { redraw() }, [elements])]: the re-render after a
    Document change. *)
Definition rerender (s : State) (c : Ctx) : option Ctx :=
  redraw c (elements s) None.

(** ** The rendered toolbar and canvas (Canvas.tsx) *)

(** [const activeTool = TOOL_MAP[tool]] and [style={{ cursor: activeTool.cursor }}] *)
Definition activeCursor (s : State) : option string :=
  option_map cursor (TOOL_MAP (tool s)).

(** [tool === t.id ? styles.active : ''] for each toolbar button. *)
Definition toolbar_highlight (s : State) : list bool :=
  map (fun t => ToolId_eqb (tool s) (id t)) TOOLS.

(** ** The JSX sibling's controller *)

(** Its tool is a string; [TOOLS = ['rect', 'circle', 'line', 'draw']]. *)
Definition TOOLS_jsx : list string := ["rect"; "circle"; "line"; "draw"]%string.

Definition tool_name (t : ToolId) : string :=
  match t with
  | rect => "rect" | circle => "circle" | line => "line"
  | draw => "draw" | image => "image"
  end.

Record State_jsx := mkStateJ {
  elements_j : list CanvasElement;
  tool_j : string;
  drawing_j : DrawingRef
}.

Inductive Outcome_jsx :=
| OkJ (s : State_jsx)
| ThrownJ (s : State_jsx).

Definition init_jsx : State_jsx :=
  mkStateJ [] "rect" (mkDrawing false None []).

(** [makeShapeElement(t, start, pos)] with [start] possibly [null]: the
    shape branches read [start.x] and throw ([None]); any other tool
    returns [undefined] without reading it. *)
Definition makeShapeElement_at (t : string) (start : option Point) (pos : Point)
  : option (option CanvasElement) :=
  match start with
  | Some st => Some (makeShapeElement t st pos)
  | None =>
      if (String.eqb t "rect" || String.eqb t "circle" || String.eqb t "line")%bool
      then None else Some None
  end.

Definition onMouseMove_jsx (s : State_jsx) (pos : Point) : Outcome_jsx :=
  let d := drawing_j s in
  if negb (active d) then OkJ s
  else if String.eqb (tool_j s) "draw" then
    OkJ (mkStateJ (elements_j s) (tool_j s) (mkDrawing (active d) (start d) (path d ++ [pos])))
  else match makeShapeElement_at (tool_j s) (start d) pos with
       | Some _ => OkJ s
       | None => ThrownJ s
       end.

Definition onMouseUp_jsx (s : State_jsx) (pos : Point) : Outcome_jsx :=
  let d := drawing_j s in
  if negb (active d) then OkJ s
  else
    let d1 := mkDrawing false (start d) (path d) in
    if String.eqb (tool_j s) "draw" then
      let path' := path d ++ [pos] in
      OkJ (mkStateJ (elements_j s ++ [DrawEl path']) (tool_j s) (mkDrawing false (start d) path'))
    else match makeShapeElement_at (tool_j s) (start d) pos with
         | Some (Some el) => OkJ (mkStateJ (elements_j s ++ [el]) (tool_j s) d1)
         | Some None => OkJ (mkStateJ (elements_j s) (tool_j s) d1)
         | None => ThrownJ (mkStateJ (elements_j s) (tool_j s) d1)
         end.

(** The same events; the toolbar button for tool [t] calls [setTool] with
    its name. *)
Definition step_jsx (s : State_jsx) (e : Event) : Outcome_jsx :=
  match e with
  | MouseDown p => OkJ (mkStateJ (elements_j s) (tool_j s) (mkDrawing true (Some p) [p]))
  | MouseMove p => onMouseMove_jsx s p
  | MouseUp p | MouseLeave p => onMouseUp_jsx s p
  | ClickTool t => OkJ (mkStateJ (elements_j s) (tool_name t) (drawing_j s))
  | ClickClear => OkJ (mkStateJ [] (tool_j s) (drawing_j s))
  | ImageLoad img =>
      let w := Qmin (inject_Z (width img)) 400 in
      let h := if (width img =? 0)%Z then NaN
               else Num (inject_Z (Math_round (fl (fl (inject_Z (height img) / inject_Z (width img)) * w)))) in
      OkJ (mkStateJ (elements_j s ++ [ImageEl img 50 50 w h]) (tool_j s) (drawing_j s))
  end.

Fixpoint run_jsx (s : State_jsx) (es : list Event) : Outcome_jsx :=
  match es with
  | [] => OkJ s
  | e :: rest =>
      match step_jsx s e with
      | OkJ s' => run_jsx s' rest
      | ThrownJ s' => ThrownJ s'
      end
  end.

(** The Canvas.tsx state seen as a JSX state. *)
Definition to_jsx (s : State) : State_jsx :=
  mkStateJ (elements s) (tool_name (tool s)) (drawing s).

Definition outcome_to_jsx (o : Outcome) : Outcome_jsx :=
  match o with
  | Ok s => OkJ (to_jsx s)
  | Thrown s => ThrownJ (to_jsx s)
  end.

(** [===] on JavaScript numbers: [NaN] equals nothing, itself included. *)
Definition js_eqv (a b : JSNumber) : Prop :=
  match a, b with
  | Num p, Num q => p == q
  | _, _ => False
  end.

(** Equality of elements as JavaScript compares their numeric fields. *)
Definition el_eqv (a b : CanvasElement) : Prop :=
  match a, b with
  | RectEl x1 y1 w1 h1, RectEl x2 y2 w2 h2 => x1 == x2 /\ y1 == y2 /\ w1 == w2 /\ h1 == h2
  | CircleEl a1 b1 c1 d1, CircleEl a2 b2 c2 d2 => a1 == a2 /\ b1 == b2 /\ c1 == c2 /\ d1 == d2
  | LineEl a1 b1 c1 d1, LineEl a2 b2 c2 d2 => a1 == a2 /\ b1 == b2 /\ c1 == c2 /\ d1 == d2
  | DrawEl p1, DrawEl p2 => p1 = p2
  | ImageEl i1 a1 b1 c1 d1, ImageEl i2 a2 b2 c2 d2 =>
      i1 = i2 /\ a1 == a2 /\ b1 == b2 /\ c1 == c2 /\ js_eqv d1 d2
  | _, _ => False
  end.

Definition opt_el_eqv (a b : option CanvasElement) : Prop :=
  match a, b with
  | Some e1, Some e2 => el_eqv e1 e2
  | None, None => True
  | _, _ => False
  end.

(** ** Small concrete runs *)

Example rect_drag_10_10_50_30 :
  opt_el_eqv (makeElement RectTool (mkPoint 10 10) (mkPoint 50 30)) (Some (RectEl 10 10 40 20)).
Proof. vm_compute; repeat split; reflexivity. Qed.

Example line_zero_length :
  run init [ClickTool line; MouseDown (mkPoint 5 5); MouseUp (mkPoint 5 5)]
  = Ok (mkState [LineEl 5 5 5 5] line (mkDrawing false (Some (mkPoint 5 5)) [mkPoint 5 5])).
Proof. reflexivity. Qed.

Example tool_map_keys :
  map (fun t => option_map id (TOOL_MAP t)) [rect; circle; line; draw; image]
  = [Some rect; Some circle; Some line; Some draw; None].
Proof. reflexivity. Qed.

(** ** Helper lemmas *)

Lemma TOOL_MAP_rect : TOOL_MAP rect = Some RectTool.
Proof. reflexivity. Qed.

Lemma TOOL_MAP_circle : TOOL_MAP circle = Some CircleTool.
Proof. reflexivity. Qed.

Lemma TOOL_MAP_line : TOOL_MAP line = Some LineTool.
Proof. reflexivity. Qed.

Lemma TOOL_MAP_draw : TOOL_MAP draw = Some FreehandTool.
Proof. reflexivity. Qed.

Lemma TOOL_MAP_image : TOOL_MAP image = None.
Proof. reflexivity. Qed.

Lemma TOOL_MAP_toolbar (t : ToolId) :
  In t (map id TOOLS) -> exists tl, TOOL_MAP t = Some tl /\ id tl = t.
Proof.
  simpl; intros [H | [H | [H | [H | []]]]]; subst; eexists; split; reflexivity.
Qed.

Lemma Qabs_diag (q : Q) : Qabs (q - q) == 0.
Proof. unfold Qminus; rewrite Qplus_opp_r; reflexivity. Qed.

(** ** C1 *)

(** C1: for every pair of points, the rect tool (and [makeShapeElement
    'rect']) builds [{x: min, y: min, w: |dx|, h: |dy|}]; a drag from a
    point to itself commits a rectangle at that point with [w = 0] and
    [h = 0]. *)
Theorem rect_build_normalizes :
  forall p1 p2 : Point,
    makeElement RectTool p1 p2 =
      Some (RectEl (Qmin (x p1) (x p2)) (Qmin (y p1) (y p2))
                   (Qabs (x p2 - x p1)) (Qabs (y p2 - y p1)))
    /\ makeShapeElement "rect" p1 p2 = makeElement RectTool p1 p2
    /\ (forall (s : State) (p : Point), tool s = rect ->
          exists x0 y0 w h,
            run s [MouseDown p; MouseUp p] =
              Ok (mkState (elements s ++ [RectEl x0 y0 w h]) rect
                          (mkDrawing false (Some p) [p]))
            /\ x0 == x p /\ y0 == y p /\ w == 0 /\ h == 0).
Proof.
  intros p1 p2; split; [reflexivity | split; [reflexivity |]].
  intros [els t d] p Ht; simpl in Ht; subst t.
  do 4 eexists; split; [reflexivity |].
  repeat split; try apply Q.min_id; apply Qabs_diag.
Qed.

Lemma rect_build_normalizes_witness :
  tool init = rect /\
  exists x0 y0 w h,
    run init [MouseDown (mkPoint 3 4); MouseUp (mkPoint 3 4)] =
      Ok (mkState (elements init ++ [RectEl x0 y0 w h]) rect
                  (mkDrawing false (Some (mkPoint 3 4)) [mkPoint 3 4]))
    /\ x0 == 3 /\ y0 == 4 /\ w == 0 /\ h == 0.
Proof.
  split; [reflexivity |].
  exact (proj2 (proj2 (rect_build_normalizes (mkPoint 0 0) (mkPoint 0 0)))
           init (mkPoint 3 4) eq_refl).
Defined.

(** ** C2 *)

(** C2: for every pair of points, the circle tool (and [makeShapeElement
    'circle']) builds the midpoint centre and half the absolute deltas as
    radii; a drag from (0,0) to (20,10) commits the circle
    [cx = 10, cy = 5, rx = 10, ry = 5]. *)
Theorem circle_build_midpoint :
  (forall p1 p2 : Point,
     makeElement CircleTool p1 p2 =
       Some (CircleEl ((x p1 + x p2) / 2) ((y p1 + y p2) / 2)
                      (Qabs (x p2 - x p1) / 2) (Qabs (y p2 - y p1) / 2))
     /\ makeShapeElement "circle" p1 p2 = makeElement CircleTool p1 p2)
  /\ (forall s : State, tool s = circle ->
        exists cx cy rx ry,
          run s [MouseDown (mkPoint 0 0); MouseUp (mkPoint 20 10)] =
            Ok (mkState (elements s ++ [CircleEl cx cy rx ry]) circle
                        (mkDrawing false (Some (mkPoint 0 0)) [mkPoint 0 0]))
          /\ cx == 10 /\ cy == 5 /\ rx == 10 /\ ry == 5).
Proof.
  split.
  - intros p1 p2; split; reflexivity.
  - intros [els t d] Ht; simpl in Ht; subst t.
    do 4 eexists; split; [reflexivity |].
    vm_compute; repeat split; reflexivity.
Qed.

Lemma circle_build_midpoint_witness :
  tool (mkState [] circle (mkDrawing false None [])) = circle /\
  exists cx cy rx ry,
    run (mkState [] circle (mkDrawing false None []))
        [MouseDown (mkPoint 0 0); MouseUp (mkPoint 20 10)] =
      Ok (mkState ([] ++ [CircleEl cx cy rx ry]) circle
                  (mkDrawing false (Some (mkPoint 0 0)) [mkPoint 0 0]))
    /\ cx == 10 /\ cy == 5 /\ rx == 10 /\ ry == 5.
Proof.
  split; [reflexivity |].
  exact (proj2 circle_build_midpoint (mkState [] circle (mkDrawing false None [])) eq_refl).
Defined.

(** ** C3 *)

Lemma rect_build_swap (p1 p2 : Point) :
  opt_el_eqv (RectTool_makeElement p1 p2) (RectTool_makeElement p2 p1).
Proof.
  unfold RectTool_makeElement, opt_el_eqv, el_eqv.
  rewrite (Qabs_Qminus (x p2)), (Qabs_Qminus (y p2)).
  repeat split; try apply Q.min_comm; reflexivity.
Qed.

Lemma circle_build_swap (p1 p2 : Point) :
  opt_el_eqv (CircleTool_makeElement p1 p2) (CircleTool_makeElement p2 p1).
Proof.
  unfold CircleTool_makeElement, opt_el_eqv, el_eqv.
  rewrite (Qabs_Qminus (x p2)), (Qabs_Qminus (y p2)).
  repeat split; try reflexivity; apply Qdiv_comp; try reflexivity; apply Qplus_comm.
Qed.

(** C3: building a rect or a circle from [p1, p2] or from [p2, p1] gives
    the same element (numerically), both through the tool registry and
    through [makeShapeElement]; building a line from the swapped points
    swaps [(x1, y1)] with [(x2, y2)]. *)
Theorem build_drag_direction :
  forall p1 p2 : Point,
    (exists tl, TOOL_MAP rect = Some tl /\
       opt_el_eqv (makeElement tl p1 p2) (makeElement tl p2 p1))
    /\ opt_el_eqv (makeShapeElement "rect" p1 p2) (makeShapeElement "rect" p2 p1)
    /\ (exists tl, TOOL_MAP circle = Some tl /\
         opt_el_eqv (makeElement tl p1 p2) (makeElement tl p2 p1))
    /\ opt_el_eqv (makeShapeElement "circle" p1 p2) (makeShapeElement "circle" p2 p1)
    /\ (exists tl x1 y1 x2 y2, TOOL_MAP line = Some tl /\
         makeElement tl p1 p2 = Some (LineEl x1 y1 x2 y2) /\
         makeElement tl p2 p1 = Some (LineEl x2 y2 x1 y1))
    /\ (exists x1 y1 x2 y2,
         makeShapeElement "line" p1 p2 = Some (LineEl x1 y1 x2 y2) /\
         makeShapeElement "line" p2 p1 = Some (LineEl x2 y2 x1 y1)).
Proof.
  intros p1 p2.
  split; [exists RectTool; split; [reflexivity | apply rect_build_swap] |].
  split; [apply rect_build_swap |].
  split; [exists CircleTool; split; [reflexivity | apply circle_build_swap] |].
  split; [apply circle_build_swap |].
  split.
  - exists LineTool, (x p1), (y p1), (x p2), (y p2); repeat split.
  - exists (x p1), (y p1), (x p2), (y p2); split; reflexivity.
Qed.

(** ** C4 *)

Lemma run_app (s : State) (es1 es2 : list Event) :
  run s (es1 ++ es2) =
  match run s es1 with
  | Ok s' => run s' es2
  | Thrown s' => Thrown s'
  end.
Proof.
  revert s; induction es1 as [| e es1 IH]; intros s; simpl; [reflexivity |].
  destruct (step s e); [apply IH | reflexivity].
Qed.

Lemma freehand_moves (els : list CanvasElement) (st : option Point) (pth ps : list Point) :
  run (mkState els draw (mkDrawing true st pth)) (map MouseMove ps) =
  Ok (mkState els draw (mkDrawing true st (pth ++ ps))).
Proof.
  revert pth; induction ps as [| p ps IH]; intros pth.
  - simpl; rewrite app_nil_r; reflexivity.
  - cbn [map run step]; unfold onMouseMove, set_drawing; cbn.
    rewrite IH, <- app_assoc; reflexivity.
Qed.

(** C4: with the freehand tool active, pointer-down at [p0], moves
    through [ps] and pointer-up at [pf] append exactly one freehand
    element, whose path is [p0 :: ps ++ [pf]]. *)
Theorem freehand_drag_path :
  forall (s : State) (p0 : Point) (ps : list Point) (pf : Point),
    tool s = draw ->
    run s ([MouseDown p0] ++ map MouseMove ps ++ [MouseUp pf]) =
      Ok (mkState (elements s ++ [DrawEl (p0 :: ps ++ [pf])]) draw
                  (mkDrawing false (Some p0) (p0 :: ps ++ [pf]))).
Proof.
  intros [els t d] p0 ps pf Ht; simpl in Ht; subst t.
  rewrite run_app; cbn [run step]; unfold onMouseDown, set_drawing; cbn [elements tool drawing].
  rewrite run_app, freehand_moves; reflexivity.
Qed.

Lemma freehand_drag_path_witness :
  tool (mkState [] draw (mkDrawing false None [])) = draw /\
  run (mkState [] draw (mkDrawing false None []))
      ([MouseDown (mkPoint 0 0)] ++ map MouseMove [mkPoint 1 1; mkPoint 2 3]
       ++ [MouseUp (mkPoint 4 4)]) =
    Ok (mkState ([] ++ [DrawEl (mkPoint 0 0 :: [mkPoint 1 1; mkPoint 2 3] ++ [mkPoint 4 4])])
                draw
                (mkDrawing false (Some (mkPoint 0 0))
                           (mkPoint 0 0 :: [mkPoint 1 1; mkPoint 2 3] ++ [mkPoint 4 4]))).
Proof.
  split; [reflexivity |].
  exact (freehand_drag_path (mkState [] draw (mkDrawing false None []))
           (mkPoint 0 0) [mkPoint 1 1; mkPoint 2 3] (mkPoint 4 4) eq_refl).
Defined.

(** ** C7 *)

(** C7: with no active drag, pointer-up and pointer-leave return normally
    and leave the whole state (Document and drag state) unchanged. *)
Theorem release_without_drag_noop :
  forall (s : State) (p : Point),
    active (drawing s) = false ->
    step s (MouseUp p) = Ok s /\ step s (MouseLeave p) = Ok s.
Proof.
  intros s p H; simpl; unfold onMouseUp; rewrite H; split; reflexivity.
Qed.

Lemma release_without_drag_noop_witness :
  active (drawing init) = false /\
  step init (MouseUp (mkPoint 7 8)) = Ok init /\
  step init (MouseLeave (mkPoint 7 8)) = Ok init.
Proof.
  split; [reflexivity |].
  exact (release_without_drag_noop init (mkPoint 7 8) eq_refl).
Defined.

(** ** C8 *)

(** C8: clear empties the Document and keeps the tool and the drag state;
    from any toolbar tool, a drag after a clear commits one element. *)
Theorem clear_only_empties_document :
  forall s : State,
    step s ClickClear = Ok (mkState [] (tool s) (drawing s))
    /\ (In (tool s) (map id TOOLS) ->
        forall p q : Point, exists el s',
          run s [ClickClear; MouseDown p; MouseUp q] = Ok s' /\ elements s' = [el]).
Proof.
  intros [els t d]; split; [reflexivity |].
  simpl; intros Ht p q.
  destruct Ht as [H | [H | [H | [H | []]]]]; subst t;
    do 2 eexists; split; reflexivity.
Qed.

Lemma clear_only_empties_document_witness :
  In (tool (mkState [LineEl 0 0 1 1] circle (mkDrawing false None []))) (map id TOOLS) /\
  exists el s',
    run (mkState [LineEl 0 0 1 1] circle (mkDrawing false None []))
        [ClickClear; MouseDown (mkPoint 1 2); MouseUp (mkPoint 5 6)] = Ok s'
    /\ elements s' = [el].
Proof.
  split; [simpl; tauto |].
  apply (proj2 (clear_only_empties_document (mkState [LineEl 0 0 1 1] circle (mkDrawing false None [])))).
  simpl; tauto.
Defined.

(** ** Binary64 rounding *)

Lemma pow2_pos (k : Z) : 0 < pow2 k.
Proof. apply Qpower_0_lt; reflexivity. Qed.

Lemma pow2_plus (a b : Z) : pow2 (a + b) == pow2 a * pow2 b.
Proof. unfold pow2; apply Qpower_plus; discriminate. Qed.

Lemma pow2_Z (n : Z) : (0 <= n)%Z -> inject_Z (2 ^ n) == pow2 n.
Proof. intros H; unfold pow2; rewrite Zpower_Qpower by exact H; reflexivity. Qed.

Lemma round_half_even_err (s : Q) : Qabs (inject_Z (round_half_even s) - s) <= 1 # 2.
Proof.
  unfold round_half_even.
  pose proof (Qfloor_le s) as H1.
  pose proof (Qlt_floor s) as H2.
  rewrite inject_Z_plus in H2; change (inject_Z 1) with 1 in H2.
  set (f := Qfloor s) in *.
  destruct (Qcompare (s - inject_Z f) (1 # 2)) eqn:Hc.
  - apply Qeq_alt in Hc.
    destruct (Z.even f); [| rewrite inject_Z_plus; change (inject_Z 1) with 1];
      apply Qabs_case; intros; lra.
  - apply Qlt_alt in Hc; apply Qabs_case; intros; lra.
  - apply Qgt_alt in Hc; rewrite inject_Z_plus; change (inject_Z 1) with 1;
      apply Qabs_case; intros; lra.
Qed.

Lemma ilog2_le (q : Q) : 0 < q -> pow2 (ilog2 q) <= q.
Proof.
  intros Hq; unfold ilog2.
  set (k0 := (Z.log2 (Qnum q) - Z.log2 (Zpos (Qden q)))%Z).
  destruct (Qle_bool (pow2 k0) q) eqn:Hb; [apply Qle_bool_iff; exact Hb |].
  destruct q as [n d]; simpl in k0.
  assert (Hn : (0 < n)%Z) by (unfold Qlt in Hq; simpl in Hq; lia).
  destruct (Z.log2_spec n Hn) as [Hn1 _].
  destruct (Z.log2_spec (Zpos d) eq_refl) as [_ Hd2].
  assert (Hln : (0 <= Z.log2 n)%Z) by apply Z.log2_nonneg.
  assert (Hld : (0 <= Z.log2 (Zpos d))%Z) by apply Z.log2_nonneg.
  assert (E : pow2 (k0 - 1) * pow2 (Z.log2 (Zpos d) + 1) == pow2 (Z.log2 n)).
  { rewrite <- pow2_plus.
    replace (k0 - 1 + (Z.log2 (Zpos d) + 1))%Z with (Z.log2 n) by (unfold k0; simpl; lia).
    reflexivity. }
  assert (Hq' : (n # d) == inject_Z n / inject_Z (Zpos d)) by (unfold Qdiv, Qeq; simpl; lia).
  rewrite Hq'.
  apply Qle_shift_div_l; [reflexivity |].
  rewrite <- (pow2_Z (Z.log2 n)) in E by exact Hln.
  rewrite <- (pow2_Z (Z.log2 (Zpos d) + 1)) in E by lia.
  pose proof (pow2_pos (k0 - 1)) as Hp.
  apply Qle_trans with (pow2 (k0 - 1) * inject_Z (2 ^ (Z.log2 (Zpos d) + 1))).
  - apply Qmult_le_l; [exact Hp |]. rewrite <- Zle_Qle; lia.
  - rewrite E; rewrite <- Zle_Qle; exact Hn1.
Qed.

Lemma fl_pos_err (q : Q) : 0 < q -> Qabs (fl_pos q - q) <= q * pow2 (-53) + pow2 (-1075).
Proof.
  intros Hq; unfold fl_pos.
  set (e := Z.max (ilog2 q - 52) (-1074)).
  set (s := q * pow2 (- e)).
  set (m := inject_Z (round_half_even s)).
  assert (Hs : s * pow2 e == q).
  { unfold s; rewrite <- Qmult_assoc, <- pow2_plus.
    replace (- e + e)%Z with 0%Z by lia; unfold pow2; simpl; ring. }
  assert (Hdiff : m * pow2 e - q == (m - s) * pow2 e) by (rewrite <- Hs at 1; ring).
  rewrite Hdiff, Qabs_Qmult, (Qabs_pos (pow2 e)) by (apply Qlt_le_weak, pow2_pos).
  pose proof (round_half_even_err s) as Hr; fold m in Hr.
  assert (Hhalf : (1 # 2) * pow2 e == pow2 (e - 1)).
  { replace e with (e - 1 + 1)%Z at 1 by lia; rewrite pow2_plus; unfold pow2 at 2; simpl; ring. }
  apply Qle_trans with ((1 # 2) * pow2 e).
  { apply Qmult_le_compat_r; [exact Hr | apply Qlt_le_weak, pow2_pos]. }
  rewrite Hhalf.
  pose proof (pow2_pos (-1075)) as P1.
  assert (Hq53 : 0 <= q * pow2 (-53))
    by (apply Qmult_le_0_compat; [lra | apply Qlt_le_weak, pow2_pos]).
  unfold e; destruct (Z.max_spec (ilog2 q - 52) (-1074)) as [[_ ->] | [_ ->]].
  - replace (-1074 - 1)%Z with (-1075)%Z by lia; lra.
  - replace (ilog2 q - 52 - 1)%Z with (ilog2 q + -53)%Z by lia.
    rewrite pow2_plus.
    assert (pow2 (ilog2 q) * pow2 (-53) <= q * pow2 (-53)).
    { apply Qmult_le_compat_r; [apply ilog2_le, Hq | apply Qlt_le_weak, pow2_pos]. }
    lra.
Qed.

(** [0.1 + 0.2] is [0.30000000000000004]: [5404319552844596 / 2^54]. *)
Example fl_tenths_sum :
  fl (fl (1 # 10) + fl (2 # 10)) == 5404319552844596 # 18014398509481984.
Proof. vm_compute; reflexivity. Qed.

(** [2^53 + 1] is halfway between two doubles and rounds to the even
    one, [2^53]; [2^53 + 3] rounds up to [2^53 + 4]. *)
Example fl_ties_to_even :
  fl (inject_Z (2 ^ 53 + 1)) == inject_Z (2 ^ 53)
  /\ fl (inject_Z (2 ^ 53 + 3)) == inject_Z (2 ^ 53 + 4).
Proof. split; vm_compute; reflexivity. Qed.

(** [(69 / 480) * 400] is [57.49999999999999] in JavaScript:
    [8092405580431359 / 2^47]. *)
Example fl_69_480 :
  fl (fl (inject_Z 69 / inject_Z 480) * 400) == 8092405580431359 # 140737488355328.
Proof. vm_compute; reflexivity. Qed.

(** Relative error [2^-53] plus the subnormal spacing bound. *)
Lemma fl_err (q : Q) : Qabs (fl q - q) <= Qabs q * pow2 (-53) + pow2 (-1075).
Proof.
  unfold fl; destruct (Qcompare q 0) eqn:Hc.
  - apply Qeq_alt in Hc; rewrite Hc.
    pose proof (pow2_pos (-1075)) as P.
    change (Qabs (0 - 0)) with 0; change (Qabs 0) with 0; lra.
  - apply Qlt_alt in Hc.
    assert (Hn : 0 < - q) by lra.
    pose proof (fl_pos_err (- q) Hn) as H.
    rewrite (Qabs_neg q) by lra.
    setoid_replace (- fl_pos (- q) - q) with (- (fl_pos (- q) - - q)) by ring.
    rewrite Qabs_opp; exact H.
  - apply Qgt_alt in Hc.
    rewrite (Qabs_pos q) by lra; apply fl_pos_err; exact Hc.
Qed.

(** [(img.height / img.width) * w] evaluated in binary64 is within 1/2
    of its exact value. *)
Lemma image_h_err (H W : Z) : (0 < W)%Z -> (0 <= H < 2 ^ 32)%Z ->
  Qabs (fl (fl (inject_Z H / inject_Z W) * Qmin (inject_Z W) 400)
        - inject_Z H / inject_Z W * Qmin (inject_Z W) 400) < 1 # 2.
Proof.
  intros HW HH.
  assert (HW1 : 1 <= inject_Z W) by (change 1 with (inject_Z 1); rewrite <- Zle_Qle; lia).
  assert (HH0 : 0 <= inject_Z H) by (change 0 with (inject_Z 0); rewrite <- Zle_Qle; lia).
  assert (HH1 : inject_Z H <= 4294967296)
    by (change 4294967296 with (inject_Z (2 ^ 32)); rewrite <- Zle_Qle; lia).
  set (a := inject_Z H / inject_Z W).
  set (w := Qmin (inject_Z W) 400).
  assert (Ha0 : 0 <= a) by (apply Qle_shift_div_l; lra).
  assert (HaW : a * inject_Z W == inject_Z H) by (unfold a; field; lra).
  assert (Hw0 : 0 < w) by (apply Q.min_glb_lt; lra).
  assert (Hw4 : w <= 400) by apply Q.le_min_r.
  assert (HwW : w <= inject_Z W) by apply Q.le_min_l.
  assert (Hx : a * w <= inject_Z H) by (rewrite <- HaW; nra).
  assert (E1 : pow2 (-53) == 1 # 9007199254740992) by reflexivity.
  set (c2 := pow2 (-1075)).
  assert (E2 : 0 <= c2 <= 1 # 1152921504606846976).
  { split; [apply Qlt_le_weak, pow2_pos | vm_compute; discriminate]. }
  set (r := fl a).
  pose proof (fl_err a) as Hr; fold r c2 in Hr; rewrite E1, (Qabs_pos a Ha0) in Hr.
  set (t := r * w).
  assert (Ht : Qabs (t - a * w) <= (a * (1 # 9007199254740992) + c2) * w).
  { setoid_replace (t - a * w) with ((r - a) * w) by (unfold t; ring).
    rewrite Qabs_Qmult, (Qabs_pos w) by lra.
    apply Qmult_le_compat_r; lra. }
  assert (Hc2w : c2 * w <= c2 * 400) by nra.
  apply Qabs_Qle_condition in Ht.
  assert (Hta : Qabs t <= a * w + (inject_Z H * (1 # 9007199254740992) + c2 * 400)).
  { apply Qabs_Qle_condition; split; nra. }
  pose proof (fl_err t) as Hp; rewrite E1 in Hp; fold c2 in Hp.
  apply Qabs_Qle_condition in Hp.
  apply Qabs_Qlt_condition; split; nra.
Qed.

Lemma Math_round_Z (n : Z) : Math_round (inject_Z n) = n.
Proof.
  unfold Math_round, Qfloor; simpl.
  rewrite Z.div_add_l by lia; change (1 / 2)%Z with 0%Z; apply Z.add_0_r.
Qed.

Lemma Math_round_comp (a b : Q) : a == b -> Math_round a = Math_round b.
Proof. intros H; unfold Math_round; apply Qfloor_comp; rewrite H; reflexivity. Qed.

Lemma Math_round_err (v : Q) : - (1 # 2) < inject_Z (Math_round v) - v <= 1 # 2.
Proof.
  unfold Math_round.
  pose proof (Qfloor_le (v + (1 # 2))) as H1.
  pose proof (Qlt_floor (v + (1 # 2))) as H2.
  rewrite inject_Z_plus in H2; change (inject_Z 1) with 1 in H2.
  lra.
Qed.

(** A value within 1/2 of an integer [n] rounds to [n]. *)
Lemma Math_round_near (v : Q) (n : Z) : Qabs (v - inject_Z n) < 1 # 2 -> Math_round v = n.
Proof.
  intros Hv; apply Qabs_Qlt_condition in Hv.
  pose proof (Math_round_err v) as Hr.
  assert (Hlt : inject_Z (Math_round v) < inject_Z n + 1) by lra.
  assert (Hgt : inject_Z n < inject_Z (Math_round v) + 1) by lra.
  change 1 with (inject_Z 1) in Hlt, Hgt; rewrite <- inject_Z_plus in Hlt, Hgt.
  rewrite <- Zlt_Qlt in Hlt, Hgt; lia.
Qed.

(** The height an image of width [W > 0] and height [H < 2^32] is
    committed with is within 1 of the exact [(H / W) * w]. *)
Lemma image_h_close (H W : Z) : (0 < W)%Z -> (0 <= H < 2 ^ 32)%Z ->
  Qabs (inject_Z (Math_round (fl (fl (inject_Z H / inject_Z W) * Qmin (inject_Z W) 400)))
        - inject_Z H / inject_Z W * Qmin (inject_Z W) 400) < 1.
Proof.
  intros HW HH.
  pose proof (image_h_err H W HW HH) as He; apply Qabs_Qlt_condition in He.
  pose proof (Math_round_err (fl (fl (inject_Z H / inject_Z W) * Qmin (inject_Z W) 400))) as Hr.
  apply Qabs_Qlt_condition; split; lra.
Qed.

(** ** C6 *)

Example upload_800_600 :
  onImageLoad init (mkImage 0 800 600) =
  Ok (mkState [ImageEl (mkImage 0 800 600) 50 50 400 (Num 300)] rect (drawing init)).
Proof. vm_compute; reflexivity. Qed.

(** JavaScript evaluates [(69 / 480) * 400] to [57.49999999999999]
    (the quotient is rounded down), so [Math.round] gives 57 where the
    exact [57.5] rounds to 58. *)
Example upload_480_69 :
  onImageLoad init (mkImage 0 480 69) =
  Ok (mkState [ImageEl (mkImage 0 480 69) 50 50 400 (Num 57)] rect (drawing init)).
Proof. vm_compute; reflexivity. Qed.

(** C6, as stated, fails: a 480x69 image commits [h = 57], not
    [round((69 / 480) * 400) = round(57.5) = 58]. *)
Lemma image_upload_placement_counterexample :
  ~ (forall (s : State) (img : HTMLImageElement),
       (0 < width img)%Z ->
       exists w h,
         step s (ImageLoad img) =
           Ok (mkState (elements s ++ [ImageEl img 50 50 w h]) (tool s) (drawing s))
         /\ w == Qmin (inject_Z (width img)) 400
         /\ js_eqv h (Num (inject_Z (Math_round ((inject_Z (height img) / inject_Z (width img)) * w))))).
Proof.
  intros Hall.
  destruct (Hall init (mkImage 0 480 69) eq_refl) as (w & h & Hs & Hw & Hh).
  vm_compute in Hs; injection Hs as Hw' Hh'; subst w h.
  vm_compute in Hh; discriminate.
Qed.

(** C6 (amended): on image load (width [W > 0], height [H < 2^32]) the
    component appends one image element at (50, 50), keeping tool and
    drag state, with [w = min(W, 400)] and [h] the rounding
    ([Math.round]) of [(H / W) * w] evaluated in binary64; [h] is within
    1 of the exact [(H / W) * w].  An 800x600 image commits [w = 400],
    [h = 300]; a 480x69 image commits [h = 57] although the exact
    [(69 / 480) * 400 = 57.5] rounds to 58. *)
Theorem image_upload_placement :
  (forall (s : State) (img : HTMLImageElement),
     (0 < width img)%Z -> (0 <= height img < 2 ^ 32)%Z ->
     exists w h,
       step s (ImageLoad img) =
         Ok (mkState (elements s ++ [ImageEl img 50 50 w (Num h)]) (tool s) (drawing s))
       /\ w == Qmin (inject_Z (width img)) 400
       /\ h == inject_Z (Math_round (fl (fl (inject_Z (height img) / inject_Z (width img)) * w)))
       /\ Qabs (h - inject_Z (height img) / inject_Z (width img) * w) < 1)
  /\ (forall (s : State) (hnd : nat),
        exists w h,
          step s (ImageLoad (mkImage hnd 800 600)) =
            Ok (mkState (elements s ++ [ImageEl (mkImage hnd 800 600) 50 50 w (Num h)])
                        (tool s) (drawing s))
          /\ w == 400 /\ h == 300)
  /\ (forall (s : State) (hnd : nat),
        step s (ImageLoad (mkImage hnd 480 69)) =
          Ok (mkState (elements s ++ [ImageEl (mkImage hnd 480 69) 50 50 400 (Num 57)])
                      (tool s) (drawing s))
        /\ Math_round ((inject_Z 69 / inject_Z 480) * 400) = 58%Z).
Proof.
  split; [| split].
  - intros s img HW HH.
    exists (Qmin (inject_Z (width img)) 400),
      (inject_Z (Math_round (fl (fl (inject_Z (height img) / inject_Z (width img))
                                 * Qmin (inject_Z (width img)) 400)))).
    split.
    + simpl; unfold onImageLoad.
      destruct (Z.eqb_spec (width img) 0) as [H0 | _]; [lia | reflexivity].
    + split; [reflexivity | split; [reflexivity |]].
      apply image_h_close; assumption.
  - intros s hnd; do 2 eexists; split; [simpl; unfold onImageLoad; simpl; reflexivity |].
    vm_compute; split; reflexivity.
  - intros s hnd; split; [vm_compute; reflexivity | reflexivity].
Qed.

Lemma image_upload_placement_witness :
  ((0 < width (mkImage 1 300 150))%Z /\ (0 <= height (mkImage 1 300 150) < 2 ^ 32)%Z) /\
  exists w h,
    step init (ImageLoad (mkImage 1 300 150)) =
      Ok (mkState (elements init ++ [ImageEl (mkImage 1 300 150) 50 50 w (Num h)])
                  (tool init) (drawing init))
    /\ w == Qmin (inject_Z 300) 400
    /\ h == inject_Z (Math_round (fl (fl (inject_Z 150 / inject_Z 300) * w)))
    /\ Qabs (h - inject_Z 150 / inject_Z 300 * w) < 1.
Proof.
  assert (Hh : (0 <= height (mkImage 1 300 150) < 2 ^ 32)%Z) by (simpl; lia).
  split; [split; [reflexivity | exact Hh] |].
  exact (proj1 image_upload_placement init (mkImage 1 300 150) eq_refl Hh).
Defined.

(** ** C9 *)

Definition draw_ok (el : CanvasElement) : Prop :=
  match el with
  | DrawEl p => (2 <= List.length p)%nat
  | _ => True
  end.

Definition freehand_inv (s : State) : Prop :=
  (active (drawing s) = true -> path (drawing s) <> [])
  /\ Forall draw_ok (elements s).

Lemma makeElement_not_draw (t : ToolId) (tl : CanvasTool) (p q : Point) (el : CanvasElement) :
  TOOL_MAP t = Some tl -> makeElement tl p q = Some el -> draw_ok el.
Proof.
  destruct t; simpl; intros H1 H2; try discriminate;
    injection H1 as <-; simpl in H2; try discriminate; injection H2 as <-; exact I.
Qed.

Lemma length_snoc_ge2 (l : list Point) (p : Point) :
  l <> [] -> (2 <= List.length (l ++ [p]))%nat.
Proof.
  intros H; rewrite length_app; simpl.
  destruct l; [congruence | simpl; lia].
Qed.

Lemma step_freehand_inv (s : State) (e : Event) :
  freehand_inv s -> freehand_inv (outcome_state (step s e)).
Proof.
  destruct s as [els t [a st pth]]; unfold freehand_inv; simpl.
  intros [Hp Hels].
  destruct e as [p | p | p | p | t' | | img]; simpl.
  - split; [intros _; discriminate | exact Hels].
  - unfold onMouseMove; simpl; destruct a; simpl; [| tauto].
    destruct (ToolId_eqb t draw); simpl.
    + split; [intros _; destruct pth; discriminate | exact Hels].
    + destruct st; [destruct (TOOL_MAP t) |]; simpl; tauto.
  - unfold onMouseUp; simpl; destruct a; simpl; [| tauto].
    destruct (ToolId_eqb t draw); simpl.
    + split; [discriminate |].
      apply Forall_app; split; [exact Hels |].
      constructor; [apply length_snoc_ge2, Hp; reflexivity | constructor].
    + destruct st as [st |]; [| simpl; split; [discriminate | exact Hels]].
      destruct (TOOL_MAP t) as [tl |] eqn:Ht; simpl; [| split; [discriminate | exact Hels]].
      destruct (makeElement tl st p) as [el |] eqn:Hel; simpl; split; try discriminate.
      * apply Forall_app; split; [exact Hels |].
        constructor; [eapply makeElement_not_draw; eassumption | constructor].
      * exact Hels.
  - unfold onMouseUp; simpl; destruct a; simpl; [| tauto].
    destruct (ToolId_eqb t draw); simpl.
    + split; [discriminate |].
      apply Forall_app; split; [exact Hels |].
      constructor; [apply length_snoc_ge2, Hp; reflexivity | constructor].
    + destruct st as [st |]; [| simpl; split; [discriminate | exact Hels]].
      destruct (TOOL_MAP t) as [tl |] eqn:Ht; simpl; [| split; [discriminate | exact Hels]].
      destruct (makeElement tl st p) as [el |] eqn:Hel; simpl; split; try discriminate.
      * apply Forall_app; split; [exact Hels |].
        constructor; [eapply makeElement_not_draw; eassumption | constructor].
      * exact Hels.
  - tauto.
  - split; [exact Hp | constructor].
  - split; [exact Hp |].
    apply Forall_app; split; [exact Hels | constructor; [exact I | constructor]].
Qed.

Lemma reachable_freehand_inv (s : State) : reachable s -> freehand_inv s.
Proof.
  induction 1.
  - split; [discriminate | constructor].
  - apply step_freehand_inv; assumption.
Qed.

Lemma run_reachable (s s' : State) (es : list Event) :
  reachable s -> Forall valid_event es -> run s es = Ok s' -> reachable s'.
Proof.
  revert s; induction es as [| e es IH]; intros s Hs Hv Hrun; simpl in Hrun.
  - injection Hrun as <-; exact Hs.
  - inversion Hv as [| ? ? He Hes]; subst.
    destruct (step s e) as [s1 | s1] eqn:Hstep; [| discriminate].
    apply (IH s1); [| exact Hes | exact Hrun].
    replace s1 with (outcome_state (step s e)) by (rewrite Hstep; reflexivity).
    apply reach_step; assumption.
Qed.

(** C9: in every reachable state, each committed freehand element has a
    path of at least two points. *)
Theorem committed_freehand_path_ge2 :
  forall s : State, reachable s ->
    Forall (fun el => match el with
                      | DrawEl p => (2 <= List.length p)%nat
                      | _ => True
                      end) (elements s).
Proof.
  intros s Hs; apply (reachable_freehand_inv s Hs).
Qed.

Definition freehand_session : list Event :=
  [ClickTool draw; MouseDown (mkPoint 1 1); MouseUp (mkPoint 1 1);
   ClickTool rect; MouseDown (mkPoint 0 0); MouseLeave (mkPoint 9 9)].

Definition freehand_session_state : State :=
  mkState [DrawEl [mkPoint 1 1; mkPoint 1 1]; RectEl 0 0 9 9] rect
          (mkDrawing false (Some (mkPoint 0 0)) [mkPoint 0 0]).

Lemma freehand_session_run : run init freehand_session = Ok freehand_session_state.
Proof. vm_compute. reflexivity. Qed.

Lemma freehand_session_reachable : reachable freehand_session_state.
Proof.
  apply (run_reachable init _ freehand_session reach_init); [| exact freehand_session_run].
  repeat constructor; simpl; tauto.
Qed.

Lemma committed_freehand_path_ge2_witness :
  reachable freehand_session_state /\
  Forall (fun el => match el with
                    | DrawEl p => (2 <= List.length p)%nat
                    | _ => True
                    end) (elements freehand_session_state).
Proof.
  split; [exact freehand_session_reachable |].
  exact (committed_freehand_path_ge2 freehand_session_state freehand_session_reachable).
Defined.

(** ** C10 *)

Lemma reachable_toolbar_tool (s : State) : reachable s -> In (tool s) (map id TOOLS).
Proof.
  induction 1 as [| s e Hs IH He].
  - simpl; tauto.
  - destruct e; simpl in *;
      try (unfold onMouseMove, onMouseUp, onImageLoad;
           repeat match goal with
                  | |- context [if ?b then _ else _] => destruct b
                  | |- context [match ?o with Some _ => _ | None => _ end] => destruct o
                  end; simpl; assumption).
Qed.

(** C10: in every reachable state the tool is a toolbar tool (never
    [image]), its [TOOL_MAP] lookup succeeds, and no event handler
    throws. *)
Theorem tool_lookup_never_fails :
  forall s : State, reachable s ->
    In (tool s) [rect; circle; line; draw]
    /\ tool s <> image
    /\ (exists tl, TOOL_MAP (tool s) = Some tl)
    /\ (forall p : Point,
          (exists s', onMouseMove s p = Ok s') /\ (exists s', onMouseUp s p = Ok s'))
    /\ (forall e : Event, valid_event e -> exists s', step s e = Ok s').
Proof.
  intros s Hs.
  pose proof (reachable_toolbar_tool s Hs) as Ht.
  destruct s as [els t [a st pth]]; simpl in Ht |- *.
  assert (Hmv : forall p, (exists s', onMouseMove (mkState els t (mkDrawing a st pth)) p = Ok s')
                          /\ (exists s', onMouseUp (mkState els t (mkDrawing a st pth)) p = Ok s')).
  { intros p; destruct Ht as [<- | [<- | [<- | [<- | []]]]];
      destruct a, st; split; eexists; reflexivity. }
  split; [exact Ht |].
  split; [intros ->; destruct Ht as [H | [H | [H | [H | []]]]]; discriminate |].
  split; [destruct (TOOL_MAP_toolbar t Ht) as [tl [H _]]; exists tl; exact H |].
  split; [exact Hmv |].
  intros e _; destruct e as [p | p | p | p | t' | | img]; simpl;
    try (eexists; reflexivity); apply Hmv.
Qed.

Lemma tool_lookup_never_fails_witness :
  reachable freehand_session_state /\
  In (tool freehand_session_state) [rect; circle; line; draw]
  /\ tool freehand_session_state <> image
  /\ (exists tl, TOOL_MAP (tool freehand_session_state) = Some tl)
  /\ (forall p : Point,
        (exists s', onMouseMove freehand_session_state p = Ok s')
        /\ (exists s', onMouseUp freehand_session_state p = Ok s'))
  /\ (forall e : Event, valid_event e -> exists s', step freehand_session_state e = Ok s').
Proof.
  split; [exact freehand_session_reachable |].
  exact (tool_lookup_never_fails freehand_session_state freehand_session_reachable).
Defined.

(** ** C5 *)

Lemma lineTo_all_spec (c : Ctx) (rest : list Point) :
  lineTo_all c rest =
  mkCtx (config c) (stack c) (ops c ++ map (fun p => LineTo (x p) (y p)) rest).
Proof.
  unfold lineTo_all; revert c; induction rest as [| p rest IH]; intros c; simpl.
  - rewrite app_nil_r; destruct c; reflexivity.
  - rewrite IH; simpl; rewrite <- app_assoc; reflexivity.
Qed.

(** Canvas.tsx: [drawElement] never throws, brings the configuration and
    the save stack back to what they were, and appends draw calls that
    depend on the element only. *)
Lemma drawElement_restores (el : CanvasElement) :
  exists new_ops, forall c : Ctx,
    drawElement c el = Some (mkCtx (config c) (stack c) (ops c ++ new_ops)).
Proof.
  destruct el as [x0 y0 w h | cx cy rx ry | x1 y1 x2 y2 | pth | img x0 y0 w h].
  1-3, 5: eexists; intros [k st o]; cbn; rewrite <- ?app_assoc; reflexivity.
  destruct (List.length pth <? 2)%nat eqn:Hlen.
  - exists []; intros [k st o]; cbn -[Nat.ltb]; rewrite Hlen, app_nil_r; reflexivity.
  - destruct pth as [| p0 rest]; [discriminate |].
    eexists; intros [k st o]; cbn -[Nat.ltb] in Hlen |- *; rewrite Hlen.
    rewrite lineTo_all_spec; cbn; rewrite <- !app_assoc; reflexivity.
Qed.

(** C5 (does not hold for the JSX [drawElement]): a freehand element with
    fewer than two points leaves that context with the fixed drawing
    configuration and one extra save-stack entry, because the early
    [return] skips [ctx.restore()].  The Canvas.tsx [drawElement] gives the
    context back unchanged for the same element. *)
Theorem drawElement_jsx_short_path_unrestored :
  drawElement_jsx default_ctx (DrawEl []) =
    mkCtx fixed_config [config default_ctx] []
  /\ config (drawElement_jsx default_ctx (DrawEl [])) <> config default_ctx
  /\ List.length (stack (drawElement_jsx default_ctx (DrawEl []))) = 1%nat
  /\ drawElement default_ctx (DrawEl []) = Some default_ctx.
Proof.
  split; [reflexivity |].
  split; [vm_compute; discriminate |].
  split; reflexivity.
Qed.

(** * Further properties of the component *)

(** ** Rendering *)

Lemma drawElements_app (c : Ctx) (els1 els2 : list CanvasElement) :
  drawElements c (els1 ++ els2) =
  match drawElements c els1 with
  | Some c' => drawElements c' els2
  | None => None
  end.
Proof.
  revert c; induction els1 as [| el els1 IH]; intros c; simpl; [reflexivity |].
  destruct (drawElement c el); [apply IH | reflexivity].
Qed.

Lemma drawElements_restores (els : list CanvasElement) :
  exists new_ops, forall c : Ctx,
    drawElements c els = Some (mkCtx (config c) (stack c) (ops c ++ new_ops)).
Proof.
  induction els as [| el els [rest IH]].
  - exists []; intros [k st o]; simpl; rewrite app_nil_r; reflexivity.
  - destruct (drawElement_restores el) as [new Hel].
    exists (new ++ rest); intros c; simpl; rewrite Hel, IH; simpl.
    rewrite app_assoc; reflexivity.
Qed.

(** Every full re-render never throws, leaves the context's styles and
    save stack as they were, and shows a picture determined by the
    Document and the draft alone, whatever was on the canvas before: two
    re-renders of the same Document look the same. *)
Theorem redraw_picture_determined :
  forall (els : list CanvasElement) (draft : option CanvasElement),
    exists picture, forall c : Ctx,
      redraw c els draft = Some (mkCtx (config c) (stack c) picture).
Proof.
  intros els draft.
  destruct (drawElements_restores els) as [new Hels].
  destruct draft as [d |].
  - destruct (drawElement_restores d) as [newd Hd].
    exists (new ++ newd); intros c; unfold redraw; rewrite Hels; simpl.
    rewrite Hd; reflexivity.
  - exists new; intros c; unfold redraw; rewrite Hels; reflexivity.
Qed.

Lemma redraw_draft_last :
  forall (c : Ctx) (els : list CanvasElement) (d : CanvasElement),
    redraw c els (Some d) = redraw c (els ++ [d]) None.
Proof.
  intros c els d; unfold redraw; rewrite drawElements_app.
  destruct (drawElements (clearRect c) els) as [c1 |]; simpl; [| reflexivity].
  destruct (drawElement c1 d); reflexivity.
Qed.

(** A draft is painted after, hence on top of, every committed element:
    rendering the Document with a draft is rendering the Document with
    the draft appended. *)
Theorem redraw_draft_on_top :
  forall (c : Ctx) (els : list CanvasElement) (d : CanvasElement),
    redraw c els (Some d) = redraw c (els ++ [d]) None.
Proof. exact redraw_draft_last. Qed.

Lemma fill_stroke_fixed_in (k : Config) (l : list DrawOp) :
  (In (FillOp k) l \/ In (StrokeOp k) l) ->
  Forall (fun op => match op with FillOp k' | StrokeOp k' => k' = fixed_config | _ => True end) l ->
  k = fixed_config.
Proof.
  intros [H | H] HF; rewrite Forall_forall in HF; apply (HF _ H).
Qed.

(** Whatever styles the context had, every fill and stroke issued while
    drawing an element uses the fixed stroke colour, 2-unit line width
    and translucent fill. *)
Theorem drawElement_fixed_styles :
  forall (c : Ctx) (el : CanvasElement),
    exists new_ops,
      drawElement c el = Some (mkCtx (config c) (stack c) (ops c ++ new_ops))
      /\ forall k, In (FillOp k) new_ops \/ In (StrokeOp k) new_ops -> k = fixed_config.
Proof.
  intros [k0 st o] el; intros.
  destruct el as [x0 y0 w h | cx cy rx ry | x1 y1 x2 y2 | pth | img x0 y0 w h].
  1-3, 5: eexists; split;
    [cbn; rewrite <- ?app_assoc; reflexivity
    | intros k Hk; eapply fill_stroke_fixed_in; [exact Hk | repeat constructor]].
  destruct (List.length pth <? 2)%nat eqn:Hlen.
  - exists []; split; [cbn -[Nat.ltb]; rewrite Hlen, app_nil_r; reflexivity |].
    intros k [[] | []].
  - destruct pth as [| p0 rest]; [discriminate |].
    eexists; split.
    + cbn -[Nat.ltb] in Hlen |- *; rewrite Hlen, lineTo_all_spec; cbn.
      rewrite <- !app_assoc; reflexivity.
    + intros k Hk; eapply fill_stroke_fixed_in; [exact Hk |].
      repeat (apply Forall_cons; [exact I |]).
      apply Forall_app; split; [| repeat constructor].
      apply Forall_forall; intros op Hop; apply in_map_iff in Hop as [p [<- _]]; exact I.
Qed.

(** A freehand element with at least two points is drawn as one stroked
    polyline that starts at the first point and visits every later point
    in order; with fewer than two points nothing is drawn and the context
    comes back unchanged. *)
Theorem freehand_render_polyline :
  forall (c : Ctx) (pth : list Point),
    (2 <= List.length pth)%nat ->
    exists p0 rest, pth = p0 :: rest /\
      drawElement c (DrawEl pth) =
        Some (mkCtx (config c) (stack c)
               (ops c ++ [BeginPath; MoveTo (x p0) (y p0)]
                      ++ map (fun p => LineTo (x p) (y p)) rest
                      ++ [StrokeOp fixed_config])).
Proof.
  intros [k st o] pth Hlen.
  destruct pth as [| p0 rest]; [simpl in Hlen; lia |].
  exists p0, rest; split; [reflexivity |].
  assert (Hb : (List.length (p0 :: rest) <? 2)%nat = false) by (apply Nat.ltb_ge; exact Hlen).
  cbn -[Nat.ltb] in Hb |- *; rewrite Hb, lineTo_all_spec; cbn.
  rewrite <- !app_assoc; reflexivity.
Qed.

Lemma freehand_render_polyline_witness :
  (2 <= List.length [mkPoint 0 0; mkPoint 3 4; mkPoint 6 0])%nat /\
  exists p0 rest, [mkPoint 0 0; mkPoint 3 4; mkPoint 6 0] = p0 :: rest /\
    drawElement default_ctx (DrawEl [mkPoint 0 0; mkPoint 3 4; mkPoint 6 0]) =
      Some (mkCtx (config default_ctx) (stack default_ctx)
             (ops default_ctx ++ [BeginPath; MoveTo (x p0) (y p0)]
                  ++ map (fun p => LineTo (x p) (y p)) rest
                  ++ [StrokeOp fixed_config])).
Proof.
  split; [simpl; lia |].
  apply freehand_render_polyline; simpl; lia.
Defined.

Theorem freehand_render_short_path :
  forall (c : Ctx) (pth : list Point),
    (List.length pth < 2)%nat -> drawElement c (DrawEl pth) = Some c.
Proof.
  intros [k st o] pth Hlen.
  assert (Hb : (List.length pth <? 2)%nat = true) by (apply Nat.ltb_lt; exact Hlen).
  cbn -[Nat.ltb]; rewrite Hb; reflexivity.
Qed.

Lemma freehand_render_short_path_witness :
  (List.length [mkPoint 2 2] < 2)%nat /\
  drawElement default_ctx (DrawEl [mkPoint 2 2]) = Some default_ctx.
Proof.
  split; [simpl; lia |].
  apply freehand_render_short_path; simpl; lia.
Defined.

(** The JSX [drawElement] draws every element the way Canvas.tsx does,
    except a freehand path of fewer than two points. *)
Theorem drawElement_jsx_agrees :
  forall (c : Ctx) (el : CanvasElement),
    (forall pth, el = DrawEl pth -> (2 <= List.length pth)%nat) ->
    drawElement c el = Some (drawElement_jsx c el).
Proof.
  intros c el Hel.
  destruct el as [x0 y0 w h | cx cy rx ry | x1 y1 x2 y2 | pth | img x0 y0 w h];
    try reflexivity.
  specialize (Hel pth eq_refl).
  assert (Hb : (List.length pth <? 2)%nat = false) by (apply Nat.ltb_ge; exact Hel).
  unfold drawElement, drawElement_jsx; cbn -[Nat.ltb FreehandTool_draw].
  unfold FreehandTool_draw; rewrite Hb.
  destruct pth; reflexivity.
Qed.

Lemma drawElement_jsx_agrees_witness :
  (forall pth, DrawEl [mkPoint 0 0; mkPoint 1 1] = DrawEl pth -> (2 <= List.length pth)%nat) /\
  drawElement default_ctx (DrawEl [mkPoint 0 0; mkPoint 1 1]) =
    Some (drawElement_jsx default_ctx (DrawEl [mkPoint 0 0; mkPoint 1 1])).
Proof.
  assert (H : forall pth, DrawEl [mkPoint 0 0; mkPoint 1 1] = DrawEl pth ->
                          (2 <= List.length pth)%nat)
    by (intros pth Heq; injection Heq as <-; simpl; lia).
  split; [exact H | apply drawElement_jsx_agrees; exact H].
Defined.

(** ** Shape geometry *)

Lemma Qmin_abs_max (a b : Q) : Qmin a b + Qabs (b - a) == Qmax a b.
Proof.
  destruct (Qlt_le_dec a b) as [H | H]; [apply Qlt_le_weak in H |].
  - rewrite Q.min_l, Q.max_r by exact H.
    rewrite Qabs_pos by (apply Qle_minus_iff in H; exact H); ring.
  - rewrite Q.min_r, Q.max_l by exact H.
    rewrite Qabs_neg by (apply Qle_minus_iff in H; unfold Qminus;
                         rewrite Qle_minus_iff; setoid_replace (0 + - (b + - a)) with (a + - b) by ring;
                         exact H).
    ring.
Qed.

Lemma rect_drag_box_spec :
  forall p1 p2 : Point,
    exists x0 y0 w h,
      makeElement RectTool p1 p2 = Some (RectEl x0 y0 w h)
      /\ x0 == Qmin (x p1) (x p2) /\ x0 + w == Qmax (x p1) (x p2)
      /\ y0 == Qmin (y p1) (y p2) /\ y0 + h == Qmax (y p1) (y p2)
      /\ 0 <= w /\ 0 <= h.
Proof.
  intros p1 p2; do 4 eexists; split; [reflexivity |].
  repeat split; try reflexivity; try apply Qmin_abs_max; apply Qabs_nonneg.
Qed.

(** A rectangle built from two drag corners spans exactly from the
    smaller to the larger coordinate on each axis, with non-negative
    width and height. *)
Theorem rect_spans_drag_box :
  forall p1 p2 : Point,
    exists x0 y0 w h,
      makeElement RectTool p1 p2 = Some (RectEl x0 y0 w h)
      /\ x0 == Qmin (x p1) (x p2) /\ x0 + w == Qmax (x p1) (x p2)
      /\ y0 == Qmin (y p1) (y p2) /\ y0 + h == Qmax (y p1) (y p2)
      /\ 0 <= w /\ 0 <= h.
Proof. exact rect_drag_box_spec. Qed.

Lemma Qmid_half_abs (a b : Q) :
  (a + b) / 2 - Qabs (b - a) / 2 == Qmin a b /\ (a + b) / 2 + Qabs (b - a) / 2 == Qmax a b.
Proof.
  destruct (Qlt_le_dec a b) as [H | H]; [apply Qlt_le_weak in H |].
  - rewrite Q.min_l, Q.max_r by exact H.
    rewrite Qabs_pos by (apply Qle_minus_iff in H; exact H).
    split; field.
  - rewrite Q.min_r, Q.max_l by exact H.
    rewrite Qabs_Qminus, Qabs_pos by (apply Qle_minus_iff in H; exact H).
    split; field.
Qed.

Lemma circle_drag_box_spec :
  forall p1 p2 : Point,
    exists cx cy rx ry,
      makeElement CircleTool p1 p2 = Some (CircleEl cx cy rx ry)
      /\ cx - rx == Qmin (x p1) (x p2) /\ cx + rx == Qmax (x p1) (x p2)
      /\ cy - ry == Qmin (y p1) (y p2) /\ cy + ry == Qmax (y p1) (y p2)
      /\ 0 <= rx /\ 0 <= ry.
Proof.
  intros p1 p2; do 4 eexists; split; [reflexivity |].
  destruct (Qmid_half_abs (x p1) (x p2)) as [Hx1 Hx2].
  destruct (Qmid_half_abs (y p1) (y p2)) as [Hy1 Hy2].
  repeat split; try assumption;
    apply Qle_shift_div_l; try reflexivity; rewrite Qmult_0_l; apply Qabs_nonneg.
Qed.

(** A circle built from two drag corners is the ellipse inscribed in the
    drag box: centre minus radius is the smaller coordinate and centre
    plus radius the larger one on each axis, radii non-negative. *)
Theorem circle_inscribed_in_drag_box :
  forall p1 p2 : Point,
    exists cx cy rx ry,
      makeElement CircleTool p1 p2 = Some (CircleEl cx cy rx ry)
      /\ cx - rx == Qmin (x p1) (x p2) /\ cx + rx == Qmax (x p1) (x p2)
      /\ cy - ry == Qmin (y p1) (y p2) /\ cy + ry == Qmax (y p1) (y p2)
      /\ 0 <= rx /\ 0 <= ry.
Proof. exact circle_drag_box_spec. Qed.

(** ** Image placement *)

(** A loaded image of positive width (and a height below [2^32]) is
    placed with a width in (0, 400] and a finite height; an image at most
    400 wide keeps its intrinsic size exactly, a wider one is scaled down
    to width 400. *)
Theorem image_natural_size_up_to_400 :
  forall (s : State) (img : HTMLImageElement),
    (0 < width img)%Z -> (0 <= height img < 2 ^ 32)%Z ->
    exists w h,
      step s (ImageLoad img) =
        Ok (mkState (elements s ++ [ImageEl img 50 50 w (Num h)]) (tool s) (drawing s))
      /\ 0 < w /\ w <= 400
      /\ ((width img <= 400)%Z -> w == inject_Z (width img) /\ h == inject_Z (height img))
      /\ ((400 < width img)%Z -> w == 400).
Proof.
  intros s img HW HH.
  exists (Qmin (inject_Z (width img)) 400),
    (inject_Z (Math_round (fl (fl (inject_Z (height img) / inject_Z (width img))
                               * Qmin (inject_Z (width img)) 400)))).
  split.
  { simpl; unfold onImageLoad.
    destruct (Z.eqb_spec (width img) 0) as [H0 | _]; [lia | reflexivity]. }
  assert (HW' : 0 < inject_Z (width img)) by (change 0 with (inject_Z 0); rewrite <- Zlt_Qlt; exact HW).
  split; [apply Q.min_glb_lt; [exact HW' | reflexivity] |].
  split; [apply Q.le_min_r |].
  split.
  - intros Hle.
    assert (Hmin : Qmin (inject_Z (width img)) 400 == inject_Z (width img))
      by (apply Q.min_l; change 400 with (inject_Z 400); rewrite <- Zle_Qle; exact Hle).
    split; [exact Hmin |].
    rewrite (Math_round_near _ (height img)); [reflexivity |].
    pose proof (image_h_err (height img) (width img) HW HH) as He.
    assert (Hx : inject_Z (height img) / inject_Z (width img) * Qmin (inject_Z (width img)) 400
                 == inject_Z (height img))
      by (rewrite Hmin; field; intros H0; rewrite H0 in HW'; discriminate).
    rewrite Hx in He; exact He.
  - intros Hlt; apply Q.min_r.
    change 400 with (inject_Z 400); rewrite <- Zle_Qle; lia.
Qed.

Lemma image_natural_size_up_to_400_witness :
  ((0 < width (mkImage 2 320 240))%Z /\ (0 <= height (mkImage 2 320 240) < 2 ^ 32)%Z) /\
  exists w h,
    step init (ImageLoad (mkImage 2 320 240)) =
      Ok (mkState (elements init ++ [ImageEl (mkImage 2 320 240) 50 50 w (Num h)])
                  (tool init) (drawing init))
    /\ 0 < w /\ w <= 400
    /\ ((width (mkImage 2 320 240) <= 400)%Z -> w == inject_Z (width (mkImage 2 320 240))
                                                 /\ h == inject_Z (height (mkImage 2 320 240)))
    /\ ((400 < width (mkImage 2 320 240))%Z -> w == 400).
Proof.
  assert (Hh : (0 <= height (mkImage 2 320 240) < 2 ^ 32)%Z) by (simpl; lia).
  split; [split; [reflexivity | exact Hh] |].
  exact (image_natural_size_up_to_400 init (mkImage 2 320 240) eq_refl Hh).
Defined.



(** ** Reachable states *)

Ltac split_matches :=
  repeat match goal with
         | |- context [if ?b then _ else _] => destruct b
         | |- context [match ?o with Some _ => _ | None => _ end] => destruct o
         end.

Definition drag_inv (s : State) : Prop :=
  active (drawing s) = true ->
  exists p rest, start (drawing s) = Some p /\ path (drawing s) = p :: rest.

Lemma step_drag_inv (s : State) (e : Event) :
  drag_inv s -> drag_inv (outcome_state (step s e)).
Proof.
  destruct s as [els t [a st pth]]; unfold drag_inv; simpl; intros H.
  destruct e; simpl; try exact H.
  - intros _; eexists _, []; split; reflexivity.
  - unfold onMouseMove; simpl; destruct a; simpl; [| exact H].
    destruct (ToolId_eqb t draw); simpl.
    + intros _; destruct (H eq_refl) as [p0 [rest [-> ->]]].
      exists p0, (rest ++ [p]); split; reflexivity.
    + split_matches; exact H.
  - unfold onMouseUp; simpl; destruct a; simpl; [| exact H].
    split_matches; simpl; discriminate.
  - unfold onMouseUp; simpl; destruct a; simpl; [| exact H].
    split_matches; simpl; discriminate.
Qed.

Lemma reachable_drag_inv (s : State) : reachable s -> drag_inv s.
Proof.
  induction 1; [discriminate | apply step_drag_inv; assumption].
Qed.

(** In every reachable state an active drag has its start point set, and
    its accumulated path begins with that start point. *)
Theorem active_drag_started :
  forall s : State, reachable s -> active (drawing s) = true ->
    exists p rest, start (drawing s) = Some p /\ path (drawing s) = p :: rest.
Proof.
  intros s Hs; apply (reachable_drag_inv s Hs).
Qed.

Definition dragging_state : State :=
  mkState [] draw (mkDrawing true (Some (mkPoint 1 1)) [mkPoint 1 1; mkPoint 2 2]).

Lemma dragging_state_reachable : reachable dragging_state.
Proof.
  apply (run_reachable init _ [ClickTool draw; MouseDown (mkPoint 1 1); MouseMove (mkPoint 2 2)]
           reach_init); [repeat constructor; simpl; tauto | reflexivity].
Qed.

Lemma active_drag_started_witness :
  reachable dragging_state /\ active (drawing dragging_state) = true /\
  exists p rest, start (drawing dragging_state) = Some p /\ path (drawing dragging_state) = p :: rest.
Proof.
  split; [exact dragging_state_reachable |]; split; [reflexivity |].
  exact (active_drag_started dragging_state dragging_state_reachable eq_refl).
Defined.


(** While dragging, the preview a pointer-move at [pos] paints is exactly
    the picture the re-render paints after a release at [pos]: the draft
    shows what will be committed. *)
Theorem move_preview_matches_commit :
  forall (s : State) (pos : Point) (c : Ctx),
    reachable s -> active (drawing s) = true ->
    exists s', onMouseUp s pos = Ok s' /\ onMouseMove_redraw s pos c = rerender s' c.
Proof.
  intros s pos c Hs Ha.
  pose proof (reachable_toolbar_tool s Hs) as Ht.
  destruct (reachable_drag_inv s Hs Ha) as [p0 [rest [Hst Hp]]].
  destruct s as [els t [a st pth]]; simpl in Ha, Hst, Hp, Ht; subst a st pth.
  unfold onMouseUp, onMouseMove_redraw, rerender; simpl.
  destruct Ht as [<- | [<- | [<- | [<- | []]]]]; simpl;
    eexists; (split; [reflexivity |]); simpl; apply redraw_draft_last.
Qed.

Lemma move_preview_matches_commit_witness :
  reachable dragging_state /\ active (drawing dragging_state) = true /\
  exists s', onMouseUp dragging_state (mkPoint 5 0) = Ok s'
             /\ onMouseMove_redraw dragging_state (mkPoint 5 0) default_ctx = rerender s' default_ctx.
Proof.
  split; [exact dragging_state_reachable |]; split; [reflexivity |].
  exact (move_preview_matches_commit dragging_state (mkPoint 5 0) default_ctx
           dragging_state_reachable eq_refl).
Defined.

(** In every reachable state the canvas shows the crosshair cursor (the
    [TOOL_MAP[tool].cursor] lookup of the render succeeds). *)
Theorem cursor_always_crosshair :
  forall s : State, reachable s -> activeCursor s = Some "crosshair"%string.
Proof.
  intros s Hs; pose proof (reachable_toolbar_tool s Hs) as Ht.
  simpl in Ht; unfold activeCursor; destruct Ht as [<- | [<- | [<- | [<- | []]]]]; reflexivity.
Qed.

Lemma cursor_always_crosshair_witness :
  reachable dragging_state /\ activeCursor dragging_state = Some "crosshair"%string.
Proof.
  split; [exact dragging_state_reachable |].
  exact (cursor_always_crosshair dragging_state dragging_state_reachable).
Defined.

(** In every reachable state exactly one toolbar button is highlighted. *)
Theorem one_toolbar_button_highlighted :
  forall s : State, reachable s -> count_occ Bool.bool_dec (toolbar_highlight s) true = 1%nat.
Proof.
  intros s Hs; pose proof (reachable_toolbar_tool s Hs) as Ht.
  simpl in Ht; unfold toolbar_highlight; destruct Ht as [<- | [<- | [<- | [<- | []]]]]; reflexivity.
Qed.

Lemma one_toolbar_button_highlighted_witness :
  reachable dragging_state /\
  count_occ Bool.bool_dec (toolbar_highlight dragging_state) true = 1%nat.
Proof.
  split; [exact dragging_state_reachable |].
  exact (one_toolbar_button_highlighted dragging_state dragging_state_reachable).
Defined.

Definition geom_ok (el : CanvasElement) : Prop :=
  match el with
  | RectEl _ _ w h => 0 <= w /\ 0 <= h
  | CircleEl _ _ rx ry => 0 <= rx /\ 0 <= ry
  | _ => True
  end.

Lemma makeElement_geom_ok (t : ToolId) (tl : CanvasTool) (p q : Point) (el : CanvasElement) :
  TOOL_MAP t = Some tl -> makeElement tl p q = Some el -> geom_ok el.
Proof.
  destruct t; simpl; intros H1 H2; try discriminate; injection H1 as <-.
  - destruct (rect_drag_box_spec p q) as (x0 & y0 & w & h & Hm & _ & _ & _ & _ & Hw & Hh).
    rewrite Hm in H2; injection H2 as <-; split; assumption.
  - destruct (circle_drag_box_spec p q) as (cx & cy & rx & ry & Hm & _ & _ & _ & _ & Hx & Hy).
    rewrite Hm in H2; injection H2 as <-; split; assumption.
  - injection H2 as <-; exact I.
  - discriminate.
Qed.

Lemma step_geom_ok (s : State) (e : Event) :
  Forall geom_ok (elements s) -> Forall geom_ok (elements (outcome_state (step s e))).
Proof.
  destruct s as [els t [a st pth]]; simpl; intros H.
  destruct e as [p | p | p | p | t' | | img]; simpl; try exact H.
  - unfold onMouseMove; simpl; split_matches; exact H.
  - unfold onMouseUp; simpl; destruct a; simpl; [| exact H].
    destruct (ToolId_eqb t draw); simpl; [apply Forall_app; split; [exact H | repeat constructor] |].
    destruct st as [st |]; [| exact H].
    destruct (TOOL_MAP t) as [tl |] eqn:Ht; [| exact H].
    destruct (makeElement tl st p) as [el |] eqn:Hel; [| exact H].
    apply Forall_app; split; [exact H | constructor; [eapply makeElement_geom_ok; eassumption | constructor]].
  - unfold onMouseUp; simpl; destruct a; simpl; [| exact H].
    destruct (ToolId_eqb t draw); simpl; [apply Forall_app; split; [exact H | repeat constructor] |].
    destruct st as [st |]; [| exact H].
    destruct (TOOL_MAP t) as [tl |] eqn:Ht; [| exact H].
    destruct (makeElement tl st p) as [el |] eqn:Hel; [| exact H].
    apply Forall_app; split; [exact H | constructor; [eapply makeElement_geom_ok; eassumption | constructor]].
  - constructor.
  - apply Forall_app; split; [exact H | repeat constructor].
Qed.

(** In every reachable state each committed rectangle has non-negative
    width and height and each committed circle non-negative radii. *)
Theorem committed_shapes_nonnegative :
  forall s : State, reachable s -> Forall geom_ok (elements s).
Proof.
  induction 1; [constructor | apply step_geom_ok; assumption].
Qed.

Lemma committed_shapes_nonnegative_witness :
  reachable freehand_session_state /\ Forall geom_ok (elements freehand_session_state).
Proof.
  split; [exact freehand_session_reachable |].
  exact (committed_shapes_nonnegative freehand_session_state freehand_session_reachable).
Defined.

(** ** The JSX sibling behaves like Canvas.tsx *)

Lemma step_jsx_simulates (s : State) (e : Event) :
  drag_inv s -> In (tool s) (map id TOOLS) ->
  step_jsx (to_jsx s) e = outcome_to_jsx (step s e).
Proof.
  destruct s as [els t [a st pth]]; unfold drag_inv; simpl; intros Hd Ht.
  destruct e as [p | p | p | p | t' | | img]; try reflexivity;
    (destruct a; [destruct (Hd eq_refl) as [p0 [rest [-> ->]]] | reflexivity]);
    destruct Ht as [<- | [<- | [<- | [<- | []]]]]; reflexivity.
Qed.

Lemma run_jsx_simulates (s : State) (es : list Event) :
  reachable s -> Forall valid_event es -> run_jsx (to_jsx s) es = outcome_to_jsx (run s es).
Proof.
  revert s; induction es as [| e es IH]; intros s Hs Hv; [reflexivity |].
  inversion Hv as [| ? ? He Hes]; subst; simpl.
  rewrite (step_jsx_simulates s e (reachable_drag_inv s Hs) (reachable_toolbar_tool s Hs)).
  pose proof (reach_step s e Hs He) as Hs'.
  destruct (step s e) as [s1 | s1]; simpl in Hs' |- *; [apply IH; assumption | reflexivity].
Qed.

(** From mount, the JSX component and the Canvas.tsx component react to
    every sequence of user events (pointer events, toolbar clicks, clear,
    image loads) with the same Document, the same drag state, the same
    selected tool, and a throw at the same point if any. *)
Theorem jsx_component_matches_tsx :
  forall es : list Event, Forall valid_event es ->
    run_jsx init_jsx es = outcome_to_jsx (run init es).
Proof.
  intros es Hv; exact (run_jsx_simulates init es reach_init Hv).
Qed.

Definition sample_session : list Event :=
  [MouseDown (mkPoint 10 10); MouseMove (mkPoint 30 20); MouseUp (mkPoint 50 30);
   ClickTool circle; MouseDown (mkPoint 0 0); MouseLeave (mkPoint 20 10);
   ClickTool draw; MouseDown (mkPoint 1 1); MouseMove (mkPoint 2 2); MouseUp (mkPoint 3 3);
   ClickClear; ClickTool line; MouseDown (mkPoint 5 5); MouseUp (mkPoint 5 5);
   ImageLoad (mkImage 0 800 600)].

Lemma jsx_component_matches_tsx_witness :
  Forall valid_event sample_session /\
  run_jsx init_jsx sample_session = outcome_to_jsx (run init sample_session).
Proof.
  assert (Hv : Forall valid_event sample_session) by (repeat constructor; simpl; tauto).
  split; [exact Hv | exact (jsx_component_matches_tsx sample_session Hv)].
Defined.
